(** * Time unit conversions of [bpf/lib/time.h]

  The header defines one constant and two macros:

  - [NSEC_PER_SEC], the product [1000ULL * 1000ULL * 1000UL];
  - [bpf_ktime_get_sec()], which reads the monotonic nanosecond clock
    and divides the reading by [NSEC_PER_SEC];
  - [bpf_sec_to_jiffies(s)], which multiplies [s] by [KERNEL_HZ].

  Values of type [__u64] are integers of [Z] in [0, 2^64); every
  wrap-around of the C arithmetic is written out. *)

From Stdlib Require Import ZArith Lia List Sorted.
Import ListNotations.
Local Open Scope Z_scope.

(** ** Unsigned 64-bit arithmetic *)

Module U64.

Definition width : Z := 64.
Definition modulus : Z := 2 ^ width.

(** The values a [__u64] holds. *)
Definition in_range (z : Z) : Prop := 0 <= z < modulus.
Definition in_rangeb (z : Z) : bool := (0 <=? z) && (z <? modulus).

(** Conversion of an integer value to [__u64]. *)
Definition cast (z : Z) : Z := z mod modulus.

(** [a * b] on two [unsigned long long] operands. *)
Definition mul (a b : Z) : Z := cast (a * b).

(** [a / b] on two [unsigned long long] operands.  The quotient of
    unsigned operands truncates, which on non-negative integers is
    the floor; a zero divisor has no defined result. *)
Definition div (a b : Z) : option Z :=
  if b =? 0 then None else Some (a / b).

End U64.

(** ** The constant *)

(** [#define NSEC_PER_SEC (1000ULL * 1000ULL * 1000UL)] *)
Definition NSEC_PER_SEC : Z := U64.mul (U64.mul 1000 1000) 1000.

(** ** Programs that may read the clock *)

Section Program.

(** The state of the host environment, as far as the clock sees it. *)
Variable World : Type.

(** A computation runs on a world and either yields a value and the
    world it leaves behind, or has no defined result. *)
Definition Prog (A : Type) : Type := World -> option (A * World).

Definition ret {A : Type} (a : A) : Prog A :=
  fun w => Some (a, w).

Definition bind {A B : Type} (m : Prog A) (k : A -> Prog B) : Prog B :=
  fun w => match m w with
           | Some (a, w') => k a w'
           | None => None
           end.

(** An operation that is undefined on some operands. *)
Definition partial {A : Type} (o : option A) : Prog A :=
  fun w => match o with
           | Some a => Some (a, w)
           | None => None
           end.

(** [ktime_get_ns()], the external clock primitive, is declared outside
    this header and is a parameter here.  A read always succeeds,
    returns the current timestamp in nanoseconds and may change the
    world. *)
Variable ktime_get_ns : World -> Z * World.

Definition read_clock : Prog Z :=
  fun w => Some (ktime_get_ns w).

(** [#define bpf_ktime_get_sec()
       ({ __u64 __x = ktime_get_ns() / NSEC_PER_SEC; __x; })] *)
Definition bpf_ktime_get_sec : Prog Z :=
  bind read_clock (fun t =>
  bind (partial (U64.div t NSEC_PER_SEC)) (fun q =>
  let __x := U64.cast q in
  ret __x)).

(** The readings of [n] successive calls of [ktime_get_ns]. *)
Fixpoint ktime_trace (n : nat) (w : World) : list Z :=
  match n with
  | O => []
  | S k => let (t, w') := ktime_get_ns w in t :: ktime_trace k w'
  end.

(** The results of [n] successive calls of [bpf_ktime_get_sec]. *)
Fixpoint sec_trace (n : nat) : Prog (list Z) :=
  match n with
  | O => ret []
  | S k => bind bpf_ktime_get_sec (fun x =>
           bind (sec_trace k) (fun xs =>
           ret (x :: xs)))
  end.

End Program.

Arguments ret {World A} a w.
Arguments bind {World A B} m k w.
Arguments partial {World A} o w.
Arguments read_clock {World} ktime_get_ns w.
Arguments bpf_ktime_get_sec {World} ktime_get_ns w.
Arguments ktime_trace {World} ktime_get_ns n w.
Arguments sec_trace {World} ktime_get_ns n w.

(** ** Seconds to jiffies *)

Section Jiffies.

(** The tick frequency, a constant of the node configuration that this
    header does not define. *)
Variable KERNEL_HZ : Z.

(** [#define bpf_sec_to_jiffies(s)
       ({ __u64 __x = (s) * KERNEL_HZ; __x; })]

    [s] is a [__u64]; the constant is converted to the type of [s]
    before the multiplication. *)
Definition bpf_sec_to_jiffies (s : Z) : Z :=
  let __x := U64.cast (U64.mul s (U64.cast KERNEL_HZ)) in
  __x.

End Jiffies.

(** ** Seconds to jiffies, run on a world *)

Section JiffiesProgram.

Variable World : Type.
Variable KERNEL_HZ : Z.

(** [#define bpf_sec_to_jiffies(s)
       ({ __u64 __x = (s) * KERNEL_HZ; __x; })]

    The same statement expression as a computation on the world, built
    from the operations [bpf_ktime_get_sec] is built from: the product
    is evaluated, converted into [__x], and [__x] is the value.  The
    body makes no call, so no step of it is [read_clock]; the
    multiplication is defined on all operands, so no step is
    [partial]. *)
Definition bpf_sec_to_jiffies_stmt (s : Z) : Prog World Z :=
  bind (ret (U64.mul s (U64.cast KERNEL_HZ))) (fun p =>
  let __x := U64.cast p in
  ret __x).

End JiffiesProgram.

Arguments bpf_sec_to_jiffies_stmt {World} KERNEL_HZ s w.

(** ** Clocks to run the programs on *)

(** A clock whose reading advances by [step] nanoseconds per read; the
    world is the next reading.  With [step = 0] every read returns the
    same timestamp. *)
Definition ticking_clock (step : Z) (now : Z) : Z * Z :=
  (now, now + step).

Definition fixed_clock : Z -> Z * Z := ticking_clock 0.

(** ** Facts about the 64-bit arithmetic *)

Lemma modulus_pos : 0 < U64.modulus.
Proof. reflexivity. Qed.

Lemma in_rangeb_spec (z : Z) : U64.in_rangeb z = true <-> U64.in_range z.
Proof.
  unfold U64.in_rangeb, U64.in_range.
  rewrite Bool.andb_true_iff, Z.leb_le, Z.ltb_lt. tauto.
Qed.

Lemma cast_in_range (z : Z) : U64.in_range (U64.cast z).
Proof. apply Z.mod_pos_bound, modulus_pos. Qed.

Lemma cast_small (z : Z) : U64.in_range z -> U64.cast z = z.
Proof. intros Hz. apply Z.mod_small, Hz. Qed.

Lemma cast_idem (z : Z) : U64.cast (U64.cast z) = U64.cast z.
Proof. apply cast_small, cast_in_range. Qed.

Lemma mul_cast_r (a b : Z) : U64.mul a (U64.cast b) = U64.cast (a * b).
Proof.
  unfold U64.mul, U64.cast.
  apply Z.mul_mod_idemp_r. pose proof modulus_pos. lia.
Qed.

Lemma NSEC_PER_SEC_eq : NSEC_PER_SEC = 1000000000.
Proof. reflexivity. Qed.

Lemma div_NSEC_PER_SEC (t : Z) :
  U64.div t NSEC_PER_SEC = Some (t / 1000000000).
Proof. unfold U64.div. rewrite NSEC_PER_SEC_eq. reflexivity. Qed.

Lemma quot_in_range (t : Z) :
  U64.in_range t -> U64.in_range (t / 1000000000).
Proof.
  unfold U64.in_range. intros [Hlo Hhi]. split.
  - apply Z.div_pos; lia.
  - apply Z.le_lt_trans with t; [| exact Hhi].
    apply Z.div_le_upper_bound; lia.
Qed.

Lemma sorted_quot (l : list Z) :
  Sorted Z.le l -> Sorted Z.le (map (fun t => t / 1000000000) l).
Proof.
  induction 1 as [| a l Hs IH Hhd]; simpl; constructor.
  - exact IH.
  - destruct Hhd as [| b l' Hab]; simpl; constructor.
    apply Z.div_le_mono; lia.
Qed.

(** ** Facts about the clock programs *)

Section ClockFacts.

Context {World : Type} (ktime_get_ns : World -> Z * World).

(** On every world the macro makes one clock read and returns the
    quotient, converted to [__u64]. *)
Lemma bpf_ktime_get_sec_run (w : World) :
  bpf_ktime_get_sec ktime_get_ns w =
  Some (U64.cast (fst (ktime_get_ns w) / 1000000000), snd (ktime_get_ns w)).
Proof.
  unfold bpf_ktime_get_sec, bind, read_clock.
  destruct (ktime_get_ns w) as [t w']. cbv beta iota.
  rewrite div_NSEC_PER_SEC. reflexivity.
Qed.

Lemma bpf_ktime_get_sec_u64 (w : World) :
  U64.in_range (fst (ktime_get_ns w)) ->
  bpf_ktime_get_sec ktime_get_ns w =
  Some (fst (ktime_get_ns w) / 1000000000, snd (ktime_get_ns w)).
Proof.
  intros Ht. rewrite bpf_ktime_get_sec_run.
  rewrite cast_small by (apply quot_in_range, Ht). reflexivity.
Qed.

Lemma sec_trace_run (n : nat) :
  forall w : World,
    Forall U64.in_range (ktime_trace ktime_get_ns n w) ->
    exists w' : World,
      sec_trace ktime_get_ns n w =
      Some (map (fun t => t / 1000000000) (ktime_trace ktime_get_ns n w), w').
Proof.
  induction n as [| k IH]; intros w Hall.
  - exists w. reflexivity.
  - cbn [ktime_trace sec_trace] in *. unfold bind at 1.
    pose proof (bpf_ktime_get_sec_u64 w) as Hrun.
    destruct (ktime_get_ns w) as [t w1]. cbn [fst snd] in Hrun.
    inversion Hall as [| ? ? Ht Hrest]; subst.
    rewrite (Hrun Ht).
    destruct (IH w1 Hrest) as [w' Hk].
    exists w'. unfold bind, ret. rewrite Hk. reflexivity.
Qed.

End ClockFacts.


(** ** Facts about the jiffies conversion *)

Lemma bpf_sec_to_jiffies_wrap (hz s : Z) :
  bpf_sec_to_jiffies hz s = (s * hz) mod 2 ^ 64.
Proof.
  unfold bpf_sec_to_jiffies. cbv zeta.
  rewrite mul_cast_r, cast_idem. reflexivity.
Qed.

Lemma bpf_sec_to_jiffies_exact (hz s : Z) :
  0 <= s * hz < 2 ^ 64 -> bpf_sec_to_jiffies hz s = s * hz.
Proof.
  intros Hfit. rewrite bpf_sec_to_jiffies_wrap.
  apply Z.mod_small, Hfit.
Qed.

(** * The claims *)

(** C1: on a clock whose read returns the unsigned 64-bit timestamp [t],
    [bpf_ktime_get_sec] returns exactly the floor quotient
    [t / 1_000_000_000] (and leaves the world the read left); a reading
    of 2_500_000_000 gives 2 and a reading of 999_999_999 gives 0. *)
Theorem bpf_ktime_get_sec_floor_div :
  forall (World : Type) (ktime_get_ns : World -> Z * World) (w : World),
    U64.in_range (fst (ktime_get_ns w)) ->
    bpf_ktime_get_sec ktime_get_ns w =
      Some (fst (ktime_get_ns w) / 1000000000, snd (ktime_get_ns w)) /\
    (fst (ktime_get_ns w) = 2500000000 ->
     option_map fst (bpf_ktime_get_sec ktime_get_ns w) = Some 2) /\
    (fst (ktime_get_ns w) = 999999999 ->
     option_map fst (bpf_ktime_get_sec ktime_get_ns w) = Some 0).
Proof.
  intros World clock w Ht.
  rewrite (bpf_ktime_get_sec_u64 clock w Ht).
  split; [reflexivity |].
  split; intros ->; reflexivity.
Qed.

Lemma bpf_ktime_get_sec_floor_div_witness :
  U64.in_range (fst (fixed_clock 2500000000)) /\
  bpf_ktime_get_sec fixed_clock 2500000000 = Some (2, 2500000000).
Proof.
  split.
  - apply in_rangeb_spec. reflexivity.
  - apply (bpf_ktime_get_sec_floor_div Z fixed_clock 2500000000).
    apply in_rangeb_spec. reflexivity.
Defined.

(** C2: for an unsigned 64-bit [s] and a tick frequency [hz > 0] whose
    product [s * hz] fits in 64 unsigned bits, [bpf_sec_to_jiffies]
    returns exactly [s * hz]; 5 seconds at 250 Hz are 1250 jiffies. *)
Theorem bpf_sec_to_jiffies_product :
  forall hz s : Z,
    U64.in_range s -> 0 < hz -> s * hz < 2 ^ 64 ->
    bpf_sec_to_jiffies hz s = s * hz /\
    bpf_sec_to_jiffies 250 5 = 1250.
Proof.
  intros hz s Hs Hhz Hfit. split; [| reflexivity].
  apply bpf_sec_to_jiffies_exact.
  unfold U64.in_range in Hs. split; [nia | exact Hfit].
Qed.

Lemma bpf_sec_to_jiffies_product_witness :
  U64.in_range 5 /\ 0 < 250 /\ 5 * 250 < 2 ^ 64 /\
  bpf_sec_to_jiffies 250 5 = 5 * 250.
Proof.
  split; [apply in_rangeb_spec; reflexivity |].
  split; [reflexivity |].
  split; [reflexivity |].
  apply (bpf_sec_to_jiffies_product 250 5).
  - apply in_rangeb_spec. reflexivity.
  - reflexivity.
  - reflexivity.
Defined.

(** C3: on overflow [bpf_sec_to_jiffies] wraps silently: for every [s]
    and [hz] the result is [(s * hz) mod 2^64], always a value of the
    64-bit range; [2^63] seconds at 2 Hz give 0. *)
Theorem bpf_sec_to_jiffies_wraps :
  forall hz s : Z,
    bpf_sec_to_jiffies hz s = (s * hz) mod 2 ^ 64 /\
    U64.in_range (bpf_sec_to_jiffies hz s) /\
    bpf_sec_to_jiffies 2 (2 ^ 63) = 0.
Proof.
  intros hz s. split; [apply bpf_sec_to_jiffies_wrap |].
  split; [| reflexivity].
  unfold bpf_sec_to_jiffies. cbv zeta. apply cast_in_range.
Qed.

(** C4: the seconds conversion is monotone.  Two clock readings
    [t1 <= t2] give seconds [t1 / 1_000_000_000 <= t2 / 1_000_000_000],
    and [n] successive calls of [bpf_ktime_get_sec] over a non-decreasing
    sequence of unsigned 64-bit clock readings return a non-decreasing
    sequence of seconds, the quotient of each reading. *)
Theorem bpf_ktime_get_sec_monotone :
  (forall (World : Type) (ktime_get_ns : World -> Z * World) (w1 w2 : World),
      U64.in_range (fst (ktime_get_ns w1)) ->
      U64.in_range (fst (ktime_get_ns w2)) ->
      fst (ktime_get_ns w1) <= fst (ktime_get_ns w2) ->
      exists s1 s2 : Z,
        option_map fst (bpf_ktime_get_sec ktime_get_ns w1) = Some s1 /\
        option_map fst (bpf_ktime_get_sec ktime_get_ns w2) = Some s2 /\
        s1 = fst (ktime_get_ns w1) / 1000000000 /\
        s2 = fst (ktime_get_ns w2) / 1000000000 /\
        s1 <= s2) /\
  (forall (World : Type) (ktime_get_ns : World -> Z * World)
          (n : nat) (w : World),
      Forall U64.in_range (ktime_trace ktime_get_ns n w) ->
      Sorted Z.le (ktime_trace ktime_get_ns n w) ->
      exists (secs : list Z) (w' : World),
        sec_trace ktime_get_ns n w = Some (secs, w') /\
        secs = map (fun t => t / 1000000000) (ktime_trace ktime_get_ns n w) /\
        Sorted Z.le secs).
Proof.
  split.
  - intros World clock w1 w2 H1 H2 Hle.
    exists (fst (clock w1) / 1000000000), (fst (clock w2) / 1000000000).
    rewrite (bpf_ktime_get_sec_u64 clock w1 H1).
    rewrite (bpf_ktime_get_sec_u64 clock w2 H2).
    repeat split. apply Z.div_le_mono; lia.
  - intros World clock n w Hall Hsorted.
    destruct (sec_trace_run clock n w Hall) as [w' Hrun].
    exists (map (fun t => t / 1000000000) (ktime_trace clock n w)), w'.
    split; [exact Hrun |]. split; [reflexivity |].
    apply sorted_quot, Hsorted.
Qed.

Lemma bpf_ktime_get_sec_monotone_witness :
  Forall U64.in_range (ktime_trace (ticking_clock 750000000) 4 999999999) /\
  Sorted Z.le (ktime_trace (ticking_clock 750000000) 4 999999999) /\
  exists (secs : list Z) (w' : Z),
    sec_trace (ticking_clock 750000000) 4 999999999 = Some (secs, w') /\
    secs = map (fun t => t / 1000000000)
               (ktime_trace (ticking_clock 750000000) 4 999999999) /\
    Sorted Z.le secs.
Proof.
  assert (Hall : Forall U64.in_range
                   (ktime_trace (ticking_clock 750000000) 4 999999999)).
  { repeat constructor; discriminate. }
  assert (Hsorted : Sorted Z.le
                      (ktime_trace (ticking_clock 750000000) 4 999999999)).
  { repeat constructor; discriminate. }
  split; [exact Hall |]. split; [exact Hsorted |].
  exact (proj2 bpf_ktime_get_sec_monotone Z (ticking_clock 750000000)
               4%nat 999999999 Hall Hsorted).
Defined.

(** C5: zero seconds are zero jiffies at every tick frequency, and at
    [hz = 1] every unsigned 64-bit [s] is returned unchanged. *)
Theorem bpf_sec_to_jiffies_boundary :
  forall hz s : Z,
    U64.in_range s ->
    bpf_sec_to_jiffies hz 0 = 0 /\ bpf_sec_to_jiffies 1 s = s.
Proof.
  intros hz s Hs. split.
  - rewrite bpf_sec_to_jiffies_wrap. reflexivity.
  - rewrite bpf_sec_to_jiffies_wrap, Z.mul_1_r.
    apply Z.mod_small, Hs.
Qed.

Lemma bpf_sec_to_jiffies_boundary_witness :
  U64.in_range 18446744073709551615 /\
  bpf_sec_to_jiffies 1000 0 = 0 /\
  bpf_sec_to_jiffies 1 18446744073709551615 = 18446744073709551615.
Proof.
  split; [apply in_rangeb_spec; reflexivity |].
  apply (bpf_sec_to_jiffies_boundary 1000 18446744073709551615).
  apply in_rangeb_spec. reflexivity.
Defined.

(** C6: the division of [bpf_ktime_get_sec] never divides by zero:
    [NSEC_PER_SEC] is a non-zero constant, so the division is defined
    for every timestamp and the macro yields a value on every world;
    the jiffies conversion yields a 64-bit value on every input. *)
Theorem NSEC_PER_SEC_division_defined :
  (NSEC_PER_SEC =? 0) = false /\
  (forall t : Z, exists q : Z, U64.div t NSEC_PER_SEC = Some q) /\
  (forall (World : Type) (ktime_get_ns : World -> Z * World) (w : World),
      exists v : Z,
        bpf_ktime_get_sec ktime_get_ns w = Some (v, snd (ktime_get_ns w))) /\
  (forall hz s : Z, U64.in_range (bpf_sec_to_jiffies hz s)).
Proof.
  split; [reflexivity |].
  split.
  { intros t. exists (t / 1000000000). apply div_NSEC_PER_SEC. }
  split.
  { intros World clock w. eexists. apply bpf_ktime_get_sec_run. }
  intros hz s. unfold bpf_sec_to_jiffies. cbv zeta. apply cast_in_range.
Qed.

(** C7: the expression [1000ULL * 1000ULL * 1000UL] that defines
    [NSEC_PER_SEC] evaluates to exactly 1_000_000_000, the product of
    the three factors without wrap-around. *)
Theorem NSEC_PER_SEC_value :
  NSEC_PER_SEC = 1000000000 /\
  NSEC_PER_SEC = 10 ^ 9 /\
  NSEC_PER_SEC = 1000 * 1000 * 1000.
Proof. repeat split. Qed.

(** The statement expression yields, on every world, the value of
    [bpf_sec_to_jiffies] and the world it started on. *)
Lemma bpf_sec_to_jiffies_stmt_run (World : Type) (hz s : Z) (w : World) :
  bpf_sec_to_jiffies_stmt hz s w = Some (bpf_sec_to_jiffies hz s, w).
Proof. reflexivity. Qed.

(** The clock macro, by contrast, does depend on the world: two worlds
    give two different results. *)
Remark bpf_ktime_get_sec_depends_on_world :
  option_map fst (bpf_ktime_get_sec fixed_clock 999999999) = Some 0 /\
  option_map fst (bpf_ktime_get_sec fixed_clock 1000000000) = Some 1.
Proof. split; reflexivity. Qed.


(** C9: with a tick frequency of zero [bpf_sec_to_jiffies] returns 0 for
    every unsigned 64-bit [s]. *)
Theorem bpf_sec_to_jiffies_zero_hz :
  forall s : Z, U64.in_range s -> bpf_sec_to_jiffies 0 s = 0.
Proof.
  intros s _. rewrite bpf_sec_to_jiffies_wrap, Z.mul_0_r. reflexivity.
Qed.

Lemma bpf_sec_to_jiffies_zero_hz_witness :
  U64.in_range 86400 /\ bpf_sec_to_jiffies 0 86400 = 0.
Proof.
  split; [apply in_rangeb_spec; reflexivity |].
  apply (bpf_sec_to_jiffies_zero_hz 86400).
  apply in_rangeb_spec. reflexivity.
Defined.

(** C10: the seconds conversion is a floor: for an unsigned 64-bit
    reading [t] the returned [s] satisfies [s * 1_000_000_000 <= t] and
    [t - s * 1_000_000_000 < 1_000_000_000] in exact arithmetic. *)
Theorem bpf_ktime_get_sec_remainder :
  forall (World : Type) (ktime_get_ns : World -> Z * World) (w : World),
    U64.in_range (fst (ktime_get_ns w)) ->
    exists s : Z,
      bpf_ktime_get_sec ktime_get_ns w = Some (s, snd (ktime_get_ns w)) /\
      s * 1000000000 <= fst (ktime_get_ns w) /\
      fst (ktime_get_ns w) - s * 1000000000 < 1000000000.
Proof.
  intros World clock w Ht.
  exists (fst (clock w) / 1000000000).
  split; [apply bpf_ktime_get_sec_u64, Ht |].
  pose proof (Z.mul_div_le (fst (clock w)) 1000000000 eq_refl) as Hle.
  pose proof (Z.mul_succ_div_gt (fst (clock w)) 1000000000 eq_refl) as Hgt.
  lia.
Qed.

Lemma bpf_ktime_get_sec_remainder_witness :
  U64.in_range (fst (fixed_clock 18446744073709551615)) /\
  exists s : Z,
    bpf_ktime_get_sec fixed_clock 18446744073709551615 =
      Some (s, snd (fixed_clock 18446744073709551615)) /\
    s * 1000000000 <= fst (fixed_clock 18446744073709551615) /\
    fst (fixed_clock 18446744073709551615) - s * 1000000000 < 1000000000.
Proof.
  split; [apply in_rangeb_spec; reflexivity |].
  apply (bpf_ktime_get_sec_remainder Z fixed_clock 18446744073709551615).
  apply in_rangeb_spec. reflexivity.
Defined.

(** * Further properties of the two macros *)

(** X1: the seconds returned for an unsigned 64-bit reading never exceed
    18_446_744_073, the quotient of the largest reading; they fit in 35
    bits. *)
Theorem bpf_ktime_get_sec_upper_bound :
  forall (World : Type) (ktime_get_ns : World -> Z * World) (w : World),
    U64.in_range (fst (ktime_get_ns w)) ->
    exists s : Z,
      bpf_ktime_get_sec ktime_get_ns w = Some (s, snd (ktime_get_ns w)) /\
      0 <= s <= 18446744073 /\ s < 2 ^ 35.
Proof.
  intros World clock w Ht.
  exists (fst (clock w) / 1000000000).
  split; [apply bpf_ktime_get_sec_u64, Ht |].
  unfold U64.in_range, U64.modulus, U64.width in Ht.
  assert (Hq : 0 <= fst (clock w) / 1000000000 <= 18446744073).
  { split.
    - apply Z.div_pos; lia.
    - apply Z.lt_succ_r, Z.div_lt_upper_bound; lia. }
  split; [exact Hq | lia].
Qed.

Lemma bpf_ktime_get_sec_upper_bound_witness :
  exists s : Z,
    bpf_ktime_get_sec fixed_clock 18446744073709551615 =
      Some (s, snd (fixed_clock 18446744073709551615)) /\
    0 <= s <= 18446744073 /\ s < 2 ^ 35.
Proof.
  apply (bpf_ktime_get_sec_upper_bound Z fixed_clock 18446744073709551615).
  apply in_rangeb_spec. reflexivity.
Defined.

(** X2: converting the result of [bpf_ktime_get_sec] with
    [bpf_sec_to_jiffies] never overflows when the tick frequency is at
    most 1_000_000_000: the jiffies are the exact product of the seconds
    and the frequency, and they are not ahead of the clock reading
    ([jiffies * 1_000_000_000 <= t * hz]). *)
Theorem bpf_sec_to_jiffies_of_ktime_sec_exact :
  forall (World : Type) (ktime_get_ns : World -> Z * World) (w : World)
         (hz : Z),
    U64.in_range (fst (ktime_get_ns w)) ->
    0 <= hz <= 1000000000 ->
    bind (bpf_ktime_get_sec ktime_get_ns)
         (fun s => ret (bpf_sec_to_jiffies hz s)) w =
      Some (fst (ktime_get_ns w) / 1000000000 * hz, snd (ktime_get_ns w)) /\
    fst (ktime_get_ns w) / 1000000000 * hz * 1000000000 <=
      fst (ktime_get_ns w) * hz.
Proof.
  intros World clock w hz Ht Hhz.
  unfold bind. rewrite (bpf_ktime_get_sec_u64 clock w Ht). unfold ret.
  unfold U64.in_range, U64.modulus, U64.width in Ht.
  assert (Hq : 0 <= fst (clock w) / 1000000000 <= 18446744073).
  { split.
    - apply Z.div_pos; lia.
    - apply Z.lt_succ_r, Z.div_lt_upper_bound; lia. }
  pose proof (Z.mul_div_le (fst (clock w)) 1000000000 eq_refl) as Hfloor.
  split.
  - rewrite bpf_sec_to_jiffies_exact; [reflexivity | nia].
  - nia.
Qed.

Lemma bpf_sec_to_jiffies_of_ktime_sec_exact_witness :
  bind (bpf_ktime_get_sec fixed_clock)
       (fun s => ret (bpf_sec_to_jiffies 1000 s)) 18446744073709551615 =
    Some (18446744073000, 18446744073709551615).
Proof.
  apply (bpf_sec_to_jiffies_of_ktime_sec_exact
           Z fixed_clock 18446744073709551615 1000).
  - apply in_rangeb_spec. reflexivity.
  - split; discriminate.
Defined.

(** X3: the difference of the seconds of two unsigned 64-bit readings
    [t1 <= t2] is the whole number of seconds elapsed between them, or
    one more: [(t2 - t1) / 10^9 <= s2 - s1 <= (t2 - t1) / 10^9 + 1]. *)
Theorem bpf_ktime_get_sec_elapsed :
  forall (World : Type) (ktime_get_ns : World -> Z * World) (w1 w2 : World),
    U64.in_range (fst (ktime_get_ns w1)) ->
    U64.in_range (fst (ktime_get_ns w2)) ->
    fst (ktime_get_ns w1) <= fst (ktime_get_ns w2) ->
    exists s1 s2 : Z,
      option_map fst (bpf_ktime_get_sec ktime_get_ns w1) = Some s1 /\
      option_map fst (bpf_ktime_get_sec ktime_get_ns w2) = Some s2 /\
      (fst (ktime_get_ns w2) - fst (ktime_get_ns w1)) / 1000000000
        <= s2 - s1 /\
      s2 - s1
        <= (fst (ktime_get_ns w2) - fst (ktime_get_ns w1)) / 1000000000 + 1.
Proof.
  intros World clock w1 w2 H1 H2 Hle.
  exists (fst (clock w1) / 1000000000), (fst (clock w2) / 1000000000).
  rewrite (bpf_ktime_get_sec_u64 clock w1 H1).
  rewrite (bpf_ktime_get_sec_u64 clock w2 H2).
  split; [reflexivity |]. split; [reflexivity |].
  generalize dependent (fst (clock w1)). generalize dependent (fst (clock w2)).
  intros t2 _ t1 _ Hle.
  Z.div_mod_to_equations. lia.
Qed.

Lemma bpf_ktime_get_sec_elapsed_witness :
  exists s1 s2 : Z,
    option_map fst (bpf_ktime_get_sec fixed_clock 1999999999) = Some s1 /\
    option_map fst (bpf_ktime_get_sec fixed_clock 2000000000) = Some s2 /\
    (fst (fixed_clock 2000000000) - fst (fixed_clock 1999999999)) / 1000000000
      <= s2 - s1 /\
    s2 - s1
      <= (fst (fixed_clock 2000000000) - fst (fixed_clock 1999999999))
           / 1000000000 + 1.
Proof.
  apply (bpf_ktime_get_sec_elapsed Z fixed_clock 1999999999 2000000000).
  - apply in_rangeb_spec. reflexivity.
  - apply in_rangeb_spec. reflexivity.
  - discriminate.
Defined.

(** X4: without overflow [bpf_sec_to_jiffies] keeps the order of
    durations: for a tick frequency [hz >= 0] and [0 <= s1 <= s2] with
    [s2 * hz] fitting in 64 unsigned bits, the jiffies of [s1] are at
    most the jiffies of [s2]. *)
Theorem bpf_sec_to_jiffies_monotone :
  forall hz s1 s2 : Z,
    0 <= hz -> 0 <= s1 <= s2 -> s2 * hz < 2 ^ 64 ->
    bpf_sec_to_jiffies hz s1 <= bpf_sec_to_jiffies hz s2.
Proof.
  intros hz s1 s2 Hhz Hs Hfit.
  rewrite (bpf_sec_to_jiffies_exact hz s1) by nia.
  rewrite (bpf_sec_to_jiffies_exact hz s2) by nia.
  nia.
Qed.

Lemma bpf_sec_to_jiffies_monotone_witness :
  bpf_sec_to_jiffies 250 60 <= bpf_sec_to_jiffies 250 3600.
Proof.
  apply (bpf_sec_to_jiffies_monotone 250 60 3600).
  - discriminate.
  - split; discriminate.
  - reflexivity.
Defined.

(** X5: for an unsigned 64-bit [s] and a tick frequency [hz >= 0], the
    result of [bpf_sec_to_jiffies] is the exact product [s * hz] if and
    only if the product fits in 64 unsigned bits; when it does not fit,
    the result is strictly below the product. *)
Theorem bpf_sec_to_jiffies_exact_iff :
  forall hz s : Z,
    U64.in_range s -> 0 <= hz ->
    (bpf_sec_to_jiffies hz s = s * hz <-> s * hz < 2 ^ 64) /\
    (2 ^ 64 <= s * hz -> bpf_sec_to_jiffies hz s < s * hz).
Proof.
  intros hz s Hs Hhz.
  unfold U64.in_range in Hs.
  pose proof (Z.mod_pos_bound (s * hz) (2 ^ 64) eq_refl) as Hbound.
  rewrite bpf_sec_to_jiffies_wrap.
  split; [split |].
  - intros Heq. rewrite <- Heq. apply Hbound.
  - intros Hfit. apply Z.mod_small. split; [nia | exact Hfit].
  - intros Hover. lia.
Qed.

Lemma bpf_sec_to_jiffies_exact_iff_witness :
  (bpf_sec_to_jiffies 1000 18446744073709551 = 18446744073709551 * 1000 <->
   18446744073709551 * 1000 < 2 ^ 64) /\
  (2 ^ 64 <= 18446744073709551 * 1000 ->
   bpf_sec_to_jiffies 1000 18446744073709551 < 18446744073709551 * 1000).
Proof.
  apply (bpf_sec_to_jiffies_exact_iff 1000 18446744073709551).
  - apply in_rangeb_spec. reflexivity.
  - discriminate.
Defined.

(** X6: without overflow the conversion can be undone: for an unsigned
    64-bit [s] and [hz > 0] with [s * hz] fitting in 64 unsigned bits,
    dividing the jiffies by [hz] gives back [s] with remainder 0; hence
    two durations with the same jiffies are equal. *)
Theorem bpf_sec_to_jiffies_div_hz :
  forall hz s s' : Z,
    U64.in_range s -> U64.in_range s' -> 0 < hz ->
    s * hz < 2 ^ 64 -> s' * hz < 2 ^ 64 ->
    bpf_sec_to_jiffies hz s / hz = s /\
    bpf_sec_to_jiffies hz s mod hz = 0 /\
    (bpf_sec_to_jiffies hz s = bpf_sec_to_jiffies hz s' -> s = s').
Proof.
  intros hz s s' Hs Hs' Hhz Hfit Hfit'.
  unfold U64.in_range in Hs, Hs'.
  rewrite (bpf_sec_to_jiffies_exact hz s) by (split; [nia | exact Hfit]).
  rewrite (bpf_sec_to_jiffies_exact hz s') by (split; [nia | exact Hfit']).
  split; [apply Z.div_mul; lia |].
  split; [apply Z.mod_mul; lia |].
  intros Heq. apply Z.mul_cancel_r in Heq; [exact Heq | lia].
Qed.

Lemma bpf_sec_to_jiffies_div_hz_witness :
  bpf_sec_to_jiffies 250 86400 / 250 = 86400 /\
  bpf_sec_to_jiffies 250 86400 mod 250 = 0 /\
  (bpf_sec_to_jiffies 250 86400 = bpf_sec_to_jiffies 250 86400 ->
   86400 = 86400).
Proof.
  apply (bpf_sec_to_jiffies_div_hz 250 86400 86400).
  - apply in_rangeb_spec. reflexivity.
  - apply in_rangeb_spec. reflexivity.
  - reflexivity.
  - reflexivity.
  - reflexivity.
Defined.

(** X7: [bpf_sec_to_jiffies] is additive in 64-bit arithmetic, overflow
    included: the jiffies of the 64-bit sum of two durations are the
    64-bit sum of their jiffies. *)
Theorem bpf_sec_to_jiffies_additive :
  forall hz s1 s2 : Z,
    bpf_sec_to_jiffies hz (U64.cast (s1 + s2)) =
    U64.cast (bpf_sec_to_jiffies hz s1 + bpf_sec_to_jiffies hz s2).
Proof.
  intros hz s1 s2.
  rewrite !bpf_sec_to_jiffies_wrap. unfold U64.cast, U64.modulus, U64.width.
  rewrite Z.mul_mod_idemp_l by lia.
  rewrite <- Z.add_mod by lia.
  f_equal. ring.
Qed.
